(** * The Mi Robot Vacuum adapter (lib/devices/vacuum.js)

    A shallow embedding of the property table, the state projector
    ([propertyUpdated]), the snapshot loader ([loadProperties]) and the
    command chains ([activateCharging], [getHistoryForDay]) of the vacuum
    device class, with the properties of its specification. *)

From Stdlib Require Import ZArith List Bool.
From stdpp Require Import gmap strings pretty.

Set Warnings "-register-all".
Local Open Scope string_scope.
Local Open Scope Z_scope.
Local Open Scope list_scope.

(** ** Values *)

(** The JavaScript values the class handles.  A Number that is an integer
    is [VNum]; the quotient of two integers that is not an integer is kept
    exact as [VQuot] (the code holds its nearest double); a Date carries its
    time value in milliseconds, [None] for an invalid date. *)
Inductive value : Type :=
| VUndefined
| VNull
| VBool (b : bool)
| VNum (n : Z)
| VNaN
| VQuot (n d : Z)
| VStr (s : string)
| VDate (t : option Z)
| VArr (items : list value)
| VObj (fields : list (string * value)).

(** A raw field as the device reports it in [get_status] and
    [get_consumable]: an integer, or [None] when the field is absent from the
    reply (JavaScript's [undefined]). *)
Abbreviation raw := (option Z).

Definition of_raw (r : raw) : value :=
  match r with
  | Some n => VNum n
  | None => VUndefined
  end.

(** [String(r)] for a raw field: the decimal digits of an integer.  This
    is what JavaScript prints for an integer Number of magnitude below
    10^21; from there on JavaScript prints exponent form ([1e+21]), which
    the model does not render, so statements about the digits carry that
    bound. *)
Definition raw_to_string (r : raw) : string :=
  match r with
  | Some n => pretty n
  | None => "undefined"
  end.

(** [r / d] for a raw field and a positive integer constant. *)
Definition raw_div (r : raw) (d : Z) : value :=
  match r with
  | Some n => if (n mod d =? 0) then VNum (n / d) else VQuot n d
  | None => VNaN
  end.

(** ** Property definition table (constructor) *)

Module Mapper.

(** [mapper] of the [error_code] property. *)
Definition error (e : raw) : value :=
  match e with
  | Some 0 => VNull
  | _ => VObj [("code", of_raw e);
               ("message", VStr ("Unknown error " +:+ raw_to_string e))]
  end.

(** [mapper] of the [state] property. *)
Definition state (s : raw) : value :=
  match s with
  | Some 1 => VStr "initiating"
  | Some 2 => VStr "charger-offline"
  | Some 3 => VStr "waiting"
  | Some 5 => VStr "cleaning"
  | Some 6 => VStr "returning"
  | Some 8 => VStr "charging"
  | Some 9 => VStr "charging-error"
  | Some 10 => VStr "paused"
  | Some 11 => VStr "spot-cleaning"
  | Some 12 => VStr "error"
  | Some 13 => VStr "shutting-down"
  | Some 14 => VStr "updating"
  | Some 15 => VStr "docking"
  | Some 16 => VStr "going-to-location"
  | Some 17 => VStr "zone-cleaning"
  | Some 18 => VStr "room-cleaning"
  | Some 22 => VStr "dust-collection"
  | Some 100 => VStr "full"
  | _ => VStr ("unknown-" +:+ raw_to_string s)
  end.

(** [mapper] of the [clean_area] property. *)
Definition clean_area (v : raw) : value := raw_div v 1000000.

End Mapper.

(** The table of state labels of the specification, by raw code. *)
Definition state_labels : list (Z * string) :=
  [ (1, "initiating"); (2, "charger-offline"); (3, "waiting");
    (5, "cleaning"); (6, "returning"); (8, "charging");
    (9, "charging-error"); (10, "paused"); (11, "spot-cleaning");
    (12, "error"); (13, "shutting-down"); (14, "updating");
    (15, "docking"); (16, "going-to-location"); (17, "zone-cleaning");
    (18, "room-cleaning"); (22, "dust-collection"); (100, "full") ].

(** ** State projector ([propertyUpdated]) *)

(** What a notification makes the device invoke: the update hooks of the
    capability mixins and the [propertyUpdated] of the parent class. *)
Inductive hook : Type :=
| UpdateCharging (b : bool)
| UpdateCleaning (b : bool)
| UpdateError (e : value)
| UpdateFanSpeed (v : value)
| SuperPropertyUpdated (key : string) (v oldValue : value).

(** The device instance as the projector sees it: the snapshot of semantic
    properties, the flags the capabilities derive, and the hooks invoked so
    far, oldest first. *)
Record thing : Type := Thing {
  properties : gmap string value;
  charging : bool;
  cleaning : bool;
  error : value;
  fanSpeed : value;
  hooks : list hook
}.

Module Hooks.

(** The capability mixins (abstract-things) are external collaborators:
    each update hook stores its argument as the value of the flag it owns
    and is recorded in [hooks]. *)
Definition updateCharging (b : bool) (t : thing) : thing :=
  Thing (properties t) b (cleaning t) (error t) (fanSpeed t)
        (hooks t ++ [UpdateCharging b]).

Definition updateCleaning (b : bool) (t : thing) : thing :=
  Thing (properties t) (charging t) b (error t) (fanSpeed t)
        (hooks t ++ [UpdateCleaning b]).

Definition updateError (e : value) (t : thing) : thing :=
  Thing (properties t) (charging t) (cleaning t) e (fanSpeed t)
        (hooks t ++ [UpdateError e]).

Definition updateFanSpeed (v : value) (t : thing) : thing :=
  Thing (properties t) (charging t) (cleaning t) (error t) v
        (hooks t ++ [UpdateFanSpeed v]).

(** [super.propertyUpdated(key, value, oldValue)]. *)
Definition superPropertyUpdated (key : string) (v oldValue : value)
    (t : thing) : thing :=
  Thing (properties t) (charging t) (cleaning t) (error t) (fanSpeed t)
        (hooks t ++ [SuperPropertyUpdated key v oldValue]).

(** Modelled from the spec: [this.property(key)] of the base device class
    (lib/device.js is not among the sources), read access to the snapshot by
    semantic name: the current value of the property, [undefined] when the
    snapshot has none. *)
Definition property (key : string) (t : thing) : value :=
  default VUndefined (properties t !! key).

End Hooks.

(** [v === "lit"] for a string literal. *)
Definition is_str (v : value) (lit : string) : bool :=
  match v with
  | VStr s => String.eqb s lit
  | _ => false
  end.

Definition charging_error : value :=
  VObj [("code", VStr "charging-error");
        ("message", VStr "Error during charging")].

Definition charger_offline : value :=
  VObj [("code", VStr "charger-offline");
        ("message", VStr "Charger is offline")].

(** The [switch (value)] of the [state] branch, case labels in source
    order (the label [zone-cleaning] is there twice). *)
Definition state_rules (v : value) (t : thing) : thing :=
  if is_str v "cleaning" || is_str v "spot-cleaning"
     || is_str v "zone-cleaning" || is_str v "zone-cleaning"
     || is_str v "room-cleaning"
  then Hooks.updateCleaning true t
  else if is_str v "paused" then t
  else if is_str v "error"
  then Hooks.updateError (Hooks.property "error" t) t
  else if is_str v "charging-error" then Hooks.updateError charging_error t
  else if is_str v "charger-offline" then Hooks.updateError charger_offline t
  else Hooks.updateCleaning false t.

Definition propertyUpdated (key : string) (v oldValue : value)
    (t : thing) : thing :=
  let t1 :=
    if String.eqb key "state"
    then state_rules v (Hooks.updateCharging (is_str v "charging") t)
    else if String.eqb key "fanSpeed" then Hooks.updateFanSpeed v t
    else t in
  Hooks.superPropertyUpdated key v oldValue t1.

(** The hooks one notification invokes, in order. *)
Definition invoked (key : string) (v oldValue : value) (t : thing)
    : list hook :=
  drop (length (hooks t)) (hooks (propertyUpdated key v oldValue t)).

(** The values the rule table of the specification names. *)
Definition cleaning_label (v : value) : bool :=
  is_str v "cleaning" || is_str v "spot-cleaning"
  || is_str v "zone-cleaning" || is_str v "room-cleaning".

Definition named_in_table (v : value) : bool :=
  is_str v "charging" || cleaning_label v || is_str v "paused"
  || is_str v "error" || is_str v "charging-error"
  || is_str v "charger-offline".

Definition idle_thing : thing :=
  Thing ∅ false false VNull VUndefined [].

Definition busy_thing : thing :=
  Thing (<["error" := Mapper.error (Some 7)]> ∅) false true VNull (VNum 60) [].

(** ** Promises over a call log *)

Inductive failure : Type :=
| TypeError
| DeviceError (reason : string).

(** How a promise settles. *)
Inductive outcome (A : Type) : Type :=
| Resolved (a : A)
| Rejected (e : failure).
Arguments Resolved {A} a.
Arguments Rejected {A} e.

(** The [options] argument of [call]. *)
Record call_options : Type := Options {
  refresh : list string;
  refreshDelay : option Z
}.

(** What the device instance does to the outside world: a remote call
    (method, arguments, options; [None] for an omitted argument) or a
    [setTimeout] of so many milliseconds. *)
Inductive event : Type :=
| Call (method : string) (args : option (list value))
       (options : option call_options)
| Timeout (ms : Z).

(** A promise chain runs against the log of events so far (oldest first),
    extends it, and settles. *)
Definition promise (A : Type) : Type := list event -> outcome A * list event.

Definition resolve {A} (a : A) : promise A := fun log => (Resolved a, log).

Definition settle {A} (o : outcome A) : promise A := fun log => (o, log).

(** [p.then(f)] *)
Definition then_ {A B} (p : promise A) (f : A -> promise B) : promise B :=
  fun log =>
    match p log with
    | (Resolved a, log1) => f a log1
    | (Rejected e, log1) => (Rejected e, log1)
    end.

(** [p.catch(h)] *)
Definition catch {A} (p : promise A) (h : failure -> promise A) : promise A :=
  fun log =>
    match p log with
    | (Resolved a, log1) => (Resolved a, log1)
    | (Rejected e, log1) => h e log1
    end.

(** [Promise.all([p, q])]: both promises are started, in this order, before
    either settles; the result is rejected as soon as one of them is (when
    both are, the model reports the first one's failure). *)
Definition all2 {A B} (p : promise A) (q : promise B) : promise (A * B) :=
  fun log =>
    let '(ra, log1) := p log in
    let '(rb, log2) := q log1 in
    (match ra, rb with
     | Resolved a, Resolved b => Resolved (a, b)
     | Rejected e, _ => Rejected e
     | _, Rejected e => Rejected e
     end, log2).

(** [new Promise((resolve) => setTimeout(resolve, ms))] *)
Definition timeout (ms : Z) : promise unit :=
  fun log => (Resolved tt, log ++ [Timeout ms]).

(** The transport collaborator behind [this.call], by the shape of the
    reply the miIO protocol gives: an array of objects with integer fields
    ([get_status], [get_consumable]), an array of integer records
    ([get_clean_record]), or the raw result of a command.  Each reply may
    depend on the events so far, the method and the arguments. *)
Record transport : Type := Transport {
  objects_reply :
    list event -> string -> option (list value) ->
    outcome (list (gmap string Z));
  records_reply :
    list event -> string -> option (list value) -> outcome (list (list Z));
  command_reply :
    list event -> string -> option (list value) -> outcome value
}.

(** Modelled from the spec: [this.call(method, args, options)] of the base
    device class (lib/device.js is not among the sources), the abstract
    remote-call operation.  The invocation is recorded with its options and
    settles with the reply [reply] gives; the refresh the dispatcher runs on
    its own for a refresh directive is not part of the caller's chain and is
    not recorded. *)
Definition call {A}
    (reply : list event -> string -> option (list value) -> outcome A)
    (method : string) (args : option (list value))
    (options : option call_options) : promise A :=
  fun log =>
    (reply log method args, log ++ [Call method args options]).

Definition is_call (method : string) (e : event) : bool :=
  match e with
  | Call m _ _ => String.eqb m method
  | Timeout _ => false
  end.

(** How many calls of [method] a log holds. *)
Definition calls (method : string) (log : list event) : nat :=
  length (filter (fun e => is_call method e = true) log).

Definition rejected {A} (o : outcome A) : bool :=
  match o with
  | Resolved _ => false
  | Rejected _ => true
  end.

(** ** Property definitions of the device instance *)

Record property_definition : Type := PropertyDefinition {
  semanticName : string;
  transform : raw -> value
}.

(** [_propertyDefinitions] and [_reversePropertyDefinitions]. *)
Record tables : Type := Tables {
  _propertyDefinitions : gmap string property_definition;
  _reversePropertyDefinitions : gmap string string
}.

Definition no_tables : tables := Tables ∅ ∅.

(** Modelled from the spec: [defineProperty] of the base device class
    (lib/device.js is not among the sources).  It registers a descriptor
    under the raw key; an omitted transform is the identity, an omitted
    semantic name is the raw key; a duplicate raw key or semantic name is a
    configuration error ([None]); the reverse table maps the semantic name
    back to the raw key. *)
Definition defineProperty (rawKey : string) (name : option string)
    (mapper : option (raw -> value)) (t : tables) : option tables :=
  let semantic := default rawKey name in
  match _propertyDefinitions t !! rawKey,
        _reversePropertyDefinitions t !! semantic with
  | None, None =>
      Some (Tables
              (<[rawKey := PropertyDefinition semantic (default of_raw mapper)]>
                 (_propertyDefinitions t))
              (<[semantic := rawKey]> (_reversePropertyDefinitions t)))
  | _, _ => None
  end.

(** Modelled from the spec: [_pushProperty] of the base device class
    (lib/device.js is not among the sources).  It stores the raw value under
    its semantic name after the key's transform; a key without a definition
    is stored unchanged under its own name. *)
Definition _pushProperty (t : tables) (mapped : gmap string value)
    (prop : string) (v : raw) : gmap string value :=
  match _propertyDefinitions t !! prop with
  | Some d => <[semanticName d := transform d v]> mapped
  | None => <[prop := of_raw v]> mapped
  end.

(** The [defineProperty] calls of the constructor, in source order: raw
    key, [name] and [mapper] where given. *)
Definition defined_properties
    : list (string * option string * option (raw -> value)) :=
  [ ("error_code", Some "error", Some Mapper.error);
    ("state", None, Some Mapper.state);
    ("battery", Some "batteryLevel", None);
    ("clean_time", Some "cleanTime", None);
    ("clean_area", Some "cleanArea", Some Mapper.clean_area);
    ("fan_power", Some "fanSpeed", None);
    ("in_cleaning", None, None);
    ("main_brush_work_time", Some "mainBrushWorkTime", None);
    ("side_brush_work_time", Some "sideBrushWorkTime", None);
    ("filter_work_time", Some "filterWorkTime", None);
    ("sensor_dirty_time", Some "sensorDirtyTime", None);
    ("water_box_mode", Some "waterBoxMode", None);
    ("auto_dust_collection", Some "autoDustCollection", None);
    ("dust_collection_status", Some "dustCollectionStatus", None) ].

Definition constructor : option tables :=
  foldl (fun acc '(rawKey, name, mapper) =>
           t ← acc; defineProperty rawKey name mapper t)
        (Some no_tables) defined_properties.

Definition vacuum_tables : tables := default no_tables constructor.

(** ** Commands and loaders of the device class *)

Section Device.

(** The transport of the instance, its property tables, and the generic
    result validator (lib/checkResult.js is not among the sources): it
    passes a result on or raises. *)
Variable tr : transport.
Variable this : tables.
Variable checkResult : value -> outcome value.

Definition state_refresh : option call_options :=
  Some (Options ["state"] (Some 1000)).

Definition command (method : string) : promise value :=
  then_ (call (command_reply tr) method (Some []) state_refresh)
        (fun r => settle (checkResult r)).

Definition activateCleaning : promise value := command "app_start".

Definition pause : promise value := command "app_pause".

Definition deactivateCleaning : promise value := command "app_stop".

Definition activateCharging : promise value :=
  then_
    (then_
       (then_ (catch pause (fun _ => deactivateCleaning))
              (fun _ => timeout 1000))
       (fun _ => call (command_reply tr) "app_charge" (Some []) state_refresh))
    (fun r => settle (checkResult r)).

(** [new Date(ms)] for a Number: outside the range of time values the
    date is invalid. *)
Definition new_Date (ms : option Z) : value :=
  match ms with
  | Some t => if Z.abs t <=? 8640000000000000 then VDate (Some t)
              else VDate None
  | None => VDate None
  end.

(** One entry of [getHistoryForDay], from a record [data]. *)
Definition history_entry (data : list Z) : value :=
  VObj [("start", new_Date ((fun t => t * 1000) <$> data !! 0%nat));
        ("end", new_Date ((fun t => t * 1000) <$> data !! 1%nat));
        ("duration", of_raw (data !! 2%nat));
        ("area", raw_div (data !! 3%nat) 1000000);
        ("complete", VBool (bool_decide (data !! 5%nat = Some 1)))].

(** [Math.floor(record.getTime() / 1000)] *)
Definition epoch_seconds (t : option Z) : value :=
  match t with
  | Some ms => VNum (ms / 1000)
  | None => VNaN
  end.

Definition getHistoryForDay (day : value) : promise value :=
  let record :=
    match day with
    | VDate t => epoch_seconds t
    | _ => day
    end in
  then_ (call (records_reply tr) "get_clean_record" (Some [record]) None)
        (fun result =>
           resolve (VObj [("day", day);
                          ("history", VArr (history_entry <$> result))])).

(** The body of [props.forEach] in [loadProperties]: reading a field of
    an [undefined] status or consumable object raises a TypeError.  The
    objects are read by their own keys; a key that names a member every
    object inherits ([object_prototype_members]) is read by the code from
    the prototype instead, so statements about what a key reads carry the
    condition that it is none of them. *)
Definition load_one (status consumables : option (gmap string Z))
    (mapped : gmap string value) (prop : string)
    : outcome (gmap string value) :=
  match status with
  | None => Rejected TypeError
  | Some st =>
      match st !! prop with
      | Some n => Resolved (_pushProperty this mapped prop (Some n))
      | None =>
          match consumables with
          | None => Rejected TypeError
          | Some c => Resolved (_pushProperty this mapped prop (c !! prop))
          end
      end
  end.

Fixpoint load_each (status consumables : option (gmap string Z))
    (mapped : gmap string value) (props : list string)
    : outcome (gmap string value) :=
  match props with
  | [] => Resolved mapped
  | prop :: rest =>
      match load_one status consumables mapped prop with
      | Resolved mapped1 => load_each status consumables mapped1 rest
      | Rejected e => Rejected e
      end
  end.

(** [this._reversePropertyDefinitions[key] || key], the table read by
    its own keys (see [load_one]). *)
Definition raw_key (key : string) : string :=
  match _reversePropertyDefinitions this !! key with
  | Some r => if String.eqb r EmptyString then key else r
  | None => key
  end.

Definition loadProperties (props : list string)
    : promise (gmap string value) :=
  let props := raw_key <$> props in
  then_ (all2 (call (objects_reply tr) "get_status" None None)
              (call (objects_reply tr) "get_consumable" None None))
        (fun result =>
           let status := fst result !! 0%nat in
           let consumables := snd result !! 0%nat in
           settle (load_each status consumables ∅ props)).

End Device.

(** The [key] field of an object value, [undefined] when it has none. *)
Fixpoint lookup_field (key : string) (fields : list (string * value))
    : value :=
  match fields with
  | [] => VUndefined
  | (k, v) :: rest => if String.eqb k key then v else lookup_field key rest
  end.

Definition field (key : string) (v : value) : value :=
  match v with
  | VObj fields => lookup_field key fields
  | _ => VUndefined
  end.

Definition outcome_map {A B} (f : A -> B) (o : outcome A) : outcome B :=
  match o with
  | Resolved a => Resolved (f a)
  | Rejected e => Rejected e
  end.

(** The outcome of a command: the transport's reply passed through the
    result validator. *)
Definition validated (tr : transport) (checkResult : value -> outcome value)
    (log : list event) (method : string) : outcome value :=
  match command_reply tr log method (Some []) with
  | Resolved r => checkResult r
  | Rejected e => Rejected e
  end.

Definition is_super (h : hook) : bool :=
  match h with
  | SuperPropertyUpdated _ _ _ => true
  | _ => false
  end.

(** The label the table of the specification gives a raw code. *)
Definition label_of (code : Z) : option string :=
  snd <$> find (fun entry => Z.eqb (fst entry) code) state_labels.

(** ** Sample collaborators for concrete runs *)

(** A device that cannot be reached: every call is rejected. *)
Definition unreachable : transport :=
  Transport (fun _ _ _ => Rejected (DeviceError "Call to device timed out"))
            (fun _ _ _ => Rejected (DeviceError "Call to device timed out"))
            (fun _ _ _ => Rejected (DeviceError "Call to device timed out")).

(** A device that is cleaning, with one run in its history. *)
Definition cleaning_device : transport :=
  Transport
    (fun _ method _ =>
       if String.eqb method "get_status"
       then Resolved [ {[ "state" := 5; "battery" := 80; "error_code" := 0 ]} ]
       else Resolved [ {[ "filter_work_time" := 100 ]} ])
    (fun _ _ _ => Resolved [ [1700000000; 1700000060; 60; 26000000; 0; 1] ])
    (fun _ _ _ => Resolved (VArr [VStr "ok"])).

(** A device whose status source answers and whose consumable source does
    not. *)
Definition no_consumables : transport :=
  Transport
    (fun _ method _ =>
       if String.eqb method "get_status"
       then Resolved [ {[ "state" := 8; "battery" := 100 ]} ]
       else Rejected (DeviceError "Call to device timed out"))
    (fun _ _ _ => Resolved [])
    (fun _ _ _ => Resolved (VArr [VStr "ok"])).

(** A validator that accepts the reply [["ok"]] and raises on any other. *)
Definition accept_ok (r : value) : outcome value :=
  match r with
  | VArr [VStr "ok"] => Resolved r
  | _ => Rejected (DeviceError "Could not perform operation")
  end.

(** ** Cleaning history summary ([getHistory]) *)

(** An element of the reply to [get_clean_summary]: a number (total time,
    total area, number of runs) or the array of the days' timestamps, in
    epoch seconds. *)
Inductive summary_item : Type :=
| SummaryNumber (n : Z)
| SummaryList (timestamps : list Z).

(** An element of the reply as a value, [undefined] beyond its end. *)
Definition summary_value (item : option summary_item) : value :=
  match item with
  | Some (SummaryNumber n) => VNum n
  | Some (SummaryList timestamps) => VArr (VNum <$> timestamps)
  | None => VUndefined
  end.

(** [getHistory], over the source of summary replies: [result[3].map]
    raises a TypeError when the reply has no fourth element or a number
    there. *)
Definition getHistory
    (summary_reply :
       list event -> string -> option (list value) ->
       outcome (list summary_item)) : promise value :=
  then_ (call summary_reply "get_clean_summary" None None)
        (fun result =>
           match result !! 3%nat with
           | Some (SummaryList timestamps) =>
               resolve
                 (VObj [("count", summary_value (result !! 2%nat));
                        ("days",
                         VArr ((fun ts => new_Date (Some (ts * 1000)))
                                 <$> timestamps))])
           | _ => settle (Rejected TypeError)
           end).

(** The flags the capabilities derive, together. *)
Definition flags (t : thing) : bool * bool * value * value :=
  (charging t, cleaning t, error t, fanSpeed t).

(** [s] is one of [codes]. *)
Definition code_in (codes : list Z) (s : Z) : bool :=
  existsb (Z.eqb s) codes.

(** The notifications of a run, delivered in order: key, new value and old
    value of each. *)
Definition deliver (run : list (string * value * value)) (t : thing)
    : thing :=
  foldl (fun t '(key, v, oldValue) => propertyUpdated key v oldValue t) t run.

(** The state values the rule table of the specification names. *)
Definition named_labels : list string :=
  [ "charging"; "cleaning"; "spot-cleaning"; "zone-cleaning";
    "room-cleaning"; "paused"; "error"; "charging-error";
    "charger-offline" ].

(** The members every JavaScript object inherits from [Object.prototype]:
    [o[key]] finds them also when [o] has no such key of its own. *)
Definition object_prototype_members : list string :=
  [ "constructor"; "__defineGetter__"; "__defineSetter__";
    "hasOwnProperty"; "__lookupGetter__"; "__lookupSetter__";
    "isPrototypeOf"; "propertyIsEnumerable"; "toString"; "valueOf";
    "__proto__"; "toLocaleString" ].

(** A requested key is plain for a device when neither the key nor the raw
    key it is translated to is an inherited member. *)
Definition plain_key (this : tables) (key : string) : Prop :=
  (key ∉ object_prototype_members) /\
  (raw_key this key ∉ object_prototype_members).

(** A summary of three cleaning days. *)
Definition three_days
    : list event -> string -> option (list value) ->
      outcome (list summary_item) :=
  fun _ _ _ =>
    Resolved [SummaryNumber 7200; SummaryNumber 52000000; SummaryNumber 3;
              SummaryList [1700000000; 1700086400; 1700172800]].

(** A device whose replies hold no object. *)
Definition blank_device : transport :=
  Transport (fun _ _ _ => Resolved [])
            (fun _ _ _ => Resolved [])
            (fun _ _ _ => Resolved VNull).

(** A docked device whose consumable reply holds no object. *)
Definition status_only : transport :=
  Transport
    (fun _ method _ =>
       if String.eqb method "get_status"
       then Resolved [ {[ "state" := 8; "battery" := 100 ]} ]
       else Resolved [])
    (fun _ _ _ => Resolved [])
    (fun _ _ _ => Resolved (VArr [VStr "ok"])).

(** * Properties *)

(** ** Property definition table *)

Example state_5 : Mapper.state (Some 5) = VStr "cleaning".
Proof. reflexivity. Qed.

Example state_4 : Mapper.state (Some 4) = VStr "unknown-4".
Proof. vm_compute. reflexivity. Qed.

Example state_negative : Mapper.state (Some (-7)) = VStr "unknown--7".
Proof. vm_compute. reflexivity. Qed.

Example state_absent : Mapper.state None = VStr "unknown-undefined".
Proof. reflexivity. Qed.

Example error_7 :
  Mapper.error (Some 7) =
  VObj [("code", VNum 7); ("message", VStr "Unknown error 7")].
Proof. vm_compute. reflexivity. Qed.

Example clean_area_26 : Mapper.clean_area (Some 26000000) = VNum 26.
Proof. reflexivity. Qed.

(** The constructor's definitions raise no configuration error. *)
Lemma constructor_defined : constructor = Some vacuum_tables.
Proof.
  unfold vacuum_tables.
  assert (is_Some constructor) as [t ->]; [|reflexivity].
  eexists. reflexivity.
Qed.

(** The [state] mapper follows the table wherever the table has a label. *)
Lemma state_by_label (s : Z) :
  Mapper.state (Some s) =
  VStr (default ("unknown-" +:+ raw_to_string (Some s)) (label_of s)).
Proof.
  destruct s as [|p|p]; [reflexivity| |reflexivity].
  do 7 (destruct p as [p|p|]; try reflexivity).
Qed.







(** ** State projector *)

Example scenario_cleaning :
  invoked "state" (VStr "cleaning") (VStr "charging") idle_thing =
  [UpdateCharging false; UpdateCleaning true;
   SuperPropertyUpdated "state" (VStr "cleaning") (VStr "charging")].
Proof. reflexivity. Qed.

Example scenario_charging :
  let t := propertyUpdated "state" (VStr "charging") (VStr "docking")
             busy_thing in
  charging t = true /\ cleaning t = false.
Proof. split; reflexivity. Qed.

Example scenario_error_7 :
  invoked "state" (VStr "error") (VStr "cleaning") busy_thing =
  [UpdateCharging false;
   UpdateError (VObj [("code", VNum 7); ("message", VStr "Unknown error 7")]);
   SuperPropertyUpdated "state" (VStr "error") (VStr "cleaning")].
Proof. vm_compute. reflexivity. Qed.

Example scenario_fan_speed :
  invoked "fanSpeed" (VNum 77) (VNum 60) busy_thing =
  [UpdateFanSpeed (VNum 77); SuperPropertyUpdated "fanSpeed" (VNum 77) (VNum 60)].
Proof. reflexivity. Qed.

(** Every notification only extends the hook log. *)
Lemma hooks_state_rules (v : value) (t : thing) :
  exists rest, hooks (state_rules v t) = hooks t ++ rest.
Proof.
  unfold state_rules.
  repeat match goal with
         | |- context [if ?b then _ else _] => destruct b
         end;
    simpl; first [ by eexists | by exists []; rewrite app_nil_r ].
Qed.

Lemma hooks_propertyUpdated (key : string) (v oldValue : value) (t : thing) :
  hooks (propertyUpdated key v oldValue t) =
  hooks t ++ invoked key v oldValue t.
Proof.
  unfold invoked.
  assert (exists rest,
             hooks (propertyUpdated key v oldValue t) = hooks t ++ rest)
    as [rest ->].
  { unfold propertyUpdated. simpl.
    destruct (String.eqb key "state").
    - destruct (hooks_state_rules v
                  (Hooks.updateCharging (is_str v "charging") t))
        as [rest ->].
      simpl. rewrite <- !app_assoc. by eexists.
    - destruct (String.eqb key "fanSpeed"); simpl;
        rewrite <- ?app_assoc; by eexists. }
  by rewrite drop_app_length.
Qed.

(** Unfolds one notification into the list of hooks it invokes, by cases
    on the comparisons of the [switch]. *)
Ltac run_notification :=
  unfold invoked, propertyUpdated, state_rules; simpl;
  repeat match goal with
         | |- context [is_str ?v ?lit] => destruct (is_str v lit) eqn:?; simpl
         | |- context [String.eqb ?k ?lit] =>
             destruct (String.eqb k lit) eqn:?; simpl
         end;
  rewrite <- ?app_assoc, ?drop_app_length; simpl.

(** C1 (as the code has it): for the new state values [error],
    [charging-error] and [charger-offline] the projector sets the charging
    flag to false, raises the error update with the current [error] property,
    respectively the synthetic charging-error and charger-offline objects,
    and leaves the cleaning flag as it was: [updateCleaning] is not
    invoked. *)
Theorem error_states_raise (t : thing) (oldValue : value) :
  propertyUpdated "state" (VStr "error") oldValue t =
    Thing (properties t) false (cleaning t)
          (Hooks.property "error" t) (fanSpeed t)
          (hooks t ++ [UpdateCharging false;
                       UpdateError (Hooks.property "error" t);
                       SuperPropertyUpdated "state" (VStr "error") oldValue])
  /\
  propertyUpdated "state" (VStr "charging-error") oldValue t =
    Thing (properties t) false (cleaning t) charging_error (fanSpeed t)
          (hooks t ++ [UpdateCharging false;
                       UpdateError charging_error;
                       SuperPropertyUpdated "state" (VStr "charging-error")
                                            oldValue])
  /\
  propertyUpdated "state" (VStr "charger-offline") oldValue t =
    Thing (properties t) false (cleaning t) charger_offline (fanSpeed t)
          (hooks t ++ [UpdateCharging false;
                       UpdateError charger_offline;
                       SuperPropertyUpdated "state" (VStr "charger-offline")
                                            oldValue]).
Proof.
  repeat split; unfold propertyUpdated, state_rules; simpl;
    unfold Hooks.superPropertyUpdated, Hooks.updateError,
      Hooks.updateCharging, Hooks.property; simpl;
    rewrite <- !app_assoc; reflexivity.
Qed.

(** C1 (as stated) fails: a vacuum that is cleaning when it reports one of
    the three error states keeps its cleaning flag set. *)
Lemma error_states_keep_cleaning :
  cleaning (propertyUpdated "state" (VStr "error") (VStr "cleaning")
              busy_thing) = true /\
  cleaning (propertyUpdated "state" (VStr "charging-error") (VStr "cleaning")
              busy_thing) = true /\
  cleaning (propertyUpdated "state" (VStr "charger-offline") (VStr "cleaning")
              busy_thing) = true /\
  invoked "state" (VStr "error") (VStr "cleaning") busy_thing =
  [UpdateCharging false;
   UpdateError (VObj [("code", VNum 7); ("message", VStr "Unknown error 7")]);
   SuperPropertyUpdated "state" (VStr "error") (VStr "cleaning")].
Proof. vm_compute. repeat split; reflexivity. Qed.

(** C5: on a state notification [updateCleaning(true)] is invoked exactly
    for the four cleaning labels, and then the cleaning flag is true; for
    [paused] no cleaning update is invoked and the flag keeps its value; for
    a value the rule table does not name [updateCleaning(false)] is invoked
    and the flag is false. *)
Theorem cleaning_flag_rules (t : thing) (v oldValue : value) :
  (In (UpdateCleaning true) (invoked "state" v oldValue t) <->
   cleaning_label v = true) /\
  (cleaning_label v = true ->
   cleaning (propertyUpdated "state" v oldValue t) = true) /\
  (v = VStr "paused" ->
   (forall b, ~ In (UpdateCleaning b) (invoked "state" v oldValue t)) /\
   cleaning (propertyUpdated "state" v oldValue t) = cleaning t) /\
  (named_in_table v = false ->
   In (UpdateCleaning false) (invoked "state" v oldValue t) /\
   cleaning (propertyUpdated "state" v oldValue t) = false).
Proof.
  split; [|split; [|split]].
  - unfold cleaning_label. run_notification; simpl;
      intuition (discriminate || auto).
  - unfold cleaning_label. run_notification; simpl;
      intuition (discriminate || auto).
  - intros ->. split.
    + intros b. run_notification. intuition discriminate.
    + reflexivity.
  - unfold named_in_table, cleaning_label. run_notification; simpl;
      intuition (discriminate || auto).
Qed.

Lemma cleaning_flag_rules_witness :
  cleaning (propertyUpdated "state" (VStr "spot-cleaning") (VStr "waiting")
              idle_thing) = true /\
  cleaning (propertyUpdated "state" (VStr "paused") (VStr "cleaning")
              busy_thing) = cleaning busy_thing /\
  cleaning (propertyUpdated "state" (VStr "docking") (VStr "cleaning")
              busy_thing) = false.
Proof.
  split; [|split].
  - apply (proj1 (proj2 (cleaning_flag_rules idle_thing (VStr "spot-cleaning")
                           (VStr "waiting")))).
    reflexivity.
  - apply (proj1 (proj2 (proj2 (cleaning_flag_rules busy_thing (VStr "paused")
                                  (VStr "cleaning"))))).
    reflexivity.
  - apply (proj2 (proj2 (proj2 (cleaning_flag_rules busy_thing (VStr "docking")
                                  (VStr "cleaning"))))).
    reflexivity.
Defined.

Lemma is_str_spec (v : value) (lit : string) :
  is_str v lit = true <-> v = VStr lit.
Proof.
  split.
  - destruct v; simpl; try discriminate.
    intros H. f_equal. by apply String.eqb_eq.
  - intros ->. simpl. apply String.eqb_refl.
Qed.

Lemma is_str_other (v : value) (lit : string) :
  v <> VStr lit -> is_str v lit = false.
Proof.
  intros Hne. destruct (is_str v lit) eqn:Hv; [|reflexivity].
  destruct Hne. by apply is_str_spec.
Qed.

(** C6: on a state notification the charging flag ends true exactly when
    the new value is the string [charging], and the hooks invoked are, in
    this order, [updateCharging] with that boolean, the one update the rule
    table gives the value (none for [paused]), and last the parent's
    [propertyUpdated]; a fan-speed notification invokes [updateFanSpeed] and
    then the parent's [propertyUpdated], any other key the parent's alone. *)
Theorem charging_flag_then_forward (t : thing) (v oldValue : value) :
  (charging (propertyUpdated "state" v oldValue t) = true <->
   v = VStr "charging") /\
  (v = VStr "charging" ->
   invoked "state" v oldValue t =
   [UpdateCharging true; UpdateCleaning false;
    SuperPropertyUpdated "state" v oldValue]) /\
  (v = VStr "cleaning" \/ v = VStr "spot-cleaning" \/
   v = VStr "zone-cleaning" \/ v = VStr "room-cleaning" ->
   invoked "state" v oldValue t =
   [UpdateCharging false; UpdateCleaning true;
    SuperPropertyUpdated "state" v oldValue]) /\
  (v = VStr "paused" ->
   invoked "state" v oldValue t =
   [UpdateCharging false; SuperPropertyUpdated "state" v oldValue]) /\
  (v = VStr "error" ->
   invoked "state" v oldValue t =
   [UpdateCharging false;
    UpdateError (default VUndefined (properties t !! "error"));
    SuperPropertyUpdated "state" v oldValue]) /\
  (v = VStr "charging-error" ->
   invoked "state" v oldValue t =
   [UpdateCharging false;
    UpdateError (VObj [("code", VStr "charging-error");
                       ("message", VStr "Error during charging")]);
    SuperPropertyUpdated "state" v oldValue]) /\
  (v = VStr "charger-offline" ->
   invoked "state" v oldValue t =
   [UpdateCharging false;
    UpdateError (VObj [("code", VStr "charger-offline");
                       ("message", VStr "Charger is offline")]);
    SuperPropertyUpdated "state" v oldValue]) /\
  ((forall lit, lit ∈ named_labels -> v <> VStr lit) ->
   invoked "state" v oldValue t =
   [UpdateCharging false; UpdateCleaning false;
    SuperPropertyUpdated "state" v oldValue]) /\
  invoked "fanSpeed" v oldValue t =
    [UpdateFanSpeed v; SuperPropertyUpdated "fanSpeed" v oldValue] /\
  (forall key,
      key <> "state" -> key <> "fanSpeed" ->
      invoked key v oldValue t = [SuperPropertyUpdated key v oldValue]).
Proof.
  assert (forall (l : list hook) k, drop (length l) (l ++ k) = k) as Hdrop
    by (intros l k; apply drop_app_length).
  split.
  { rewrite <- is_str_spec. unfold propertyUpdated, state_rules. simpl.
    repeat match goal with
           | |- context [if ?b then _ else _] => destruct b eqn:?
           end; reflexivity. }
  repeat split.
  - intros ->. unfold invoked, propertyUpdated, state_rules. simpl.
    rewrite <- !app_assoc. apply Hdrop.
  - intros [->|[->|[->| ->]]];
      unfold invoked, propertyUpdated, state_rules; simpl;
      rewrite <- !app_assoc; apply Hdrop.
  - intros ->. unfold invoked, propertyUpdated, state_rules. simpl.
    rewrite <- !app_assoc. apply Hdrop.
  - intros ->. unfold invoked, propertyUpdated, state_rules. simpl.
    rewrite <- !app_assoc. apply Hdrop.
  - intros ->. unfold invoked, propertyUpdated, state_rules. simpl.
    rewrite <- !app_assoc. apply Hdrop.
  - intros ->. unfold invoked, propertyUpdated, state_rules. simpl.
    rewrite <- !app_assoc. apply Hdrop.
  - intros Hunnamed.
    assert (forall lit, lit ∈ named_labels -> is_str v lit = false) as Hno
      by (intros lit Hin; apply is_str_other, Hunnamed, Hin).
    unfold invoked, propertyUpdated, state_rules. simpl.
    rewrite !Hno
      by (unfold named_labels; rewrite !elem_of_cons; tauto).
    simpl. rewrite <- !app_assoc. apply Hdrop.
  - unfold invoked, propertyUpdated. simpl.
    rewrite <- !app_assoc. apply Hdrop.
  - intros key Hstate Hfan. unfold invoked, propertyUpdated.
    apply String.eqb_neq in Hstate, Hfan. rewrite Hstate, Hfan.
    simpl. apply Hdrop.
Qed.

Lemma charging_flag_then_forward_witness :
  invoked "state" (VStr "charging") (VStr "docking") idle_thing =
    [UpdateCharging true; UpdateCleaning false;
     SuperPropertyUpdated "state" (VStr "charging") (VStr "docking")] /\
  invoked "state" (VStr "docking") (VStr "cleaning") busy_thing =
    [UpdateCharging false; UpdateCleaning false;
     SuperPropertyUpdated "state" (VStr "docking") (VStr "cleaning")].
Proof.
  split.
  - apply (proj1 (proj2 (charging_flag_then_forward idle_thing
                           (VStr "charging") (VStr "docking")))).
    reflexivity.
  - destruct (charging_flag_then_forward busy_thing (VStr "docking")
                (VStr "cleaning"))
      as (_ & _ & _ & _ & _ & _ & _ & Hunnamed & _).
    apply Hunnamed. intros lit Hin Heq. injection Heq as <-.
    revert Hin. apply (bool_decide_unpack _). vm_compute. exact I.
Defined.

(** C10: a notification for a key other than [state] and [fanSpeed] invokes
    no capability update and changes no flag: it is only forwarded to the
    parent's [propertyUpdated], with the same arguments. *)
Theorem other_keys_only_forwarded (key : string) (v oldValue : value)
    (t : thing) :
  key <> "state" -> key <> "fanSpeed" ->
  propertyUpdated key v oldValue t =
    Thing (properties t) (charging t) (cleaning t) (error t) (fanSpeed t)
          (hooks t ++ [SuperPropertyUpdated key v oldValue]) /\
  invoked key v oldValue t = [SuperPropertyUpdated key v oldValue].
Proof.
  intros Hstate Hfan. unfold invoked, propertyUpdated.
  apply String.eqb_neq in Hstate, Hfan. rewrite Hstate, Hfan.
  simpl. split; [reflexivity|]. by rewrite drop_app_length.
Qed.

Lemma other_keys_only_forwarded_witness :
  invoked "batteryLevel" (VNum 79) (VNum 80) busy_thing =
  [SuperPropertyUpdated "batteryLevel" (VNum 79) (VNum 80)].
Proof.
  apply (other_keys_only_forwarded "batteryLevel" (VNum 79) (VNum 80)
           busy_thing); intros H; discriminate H.
Defined.

(** ** Snapshot loader *)

Example scenario_load :
  let '(snapshot, log) :=
    loadProperties cleaning_device vacuum_tables
      ["state"; "batteryLevel"; "filterWorkTime"] [] in
  outcome_map (fun m => (m !! "state", m !! "batteryLevel",
                         m !! "filterWorkTime")) snapshot =
    Resolved (Some (VStr "cleaning"), Some (VNum 80), Some (VNum 100)) /\
  log = [Call "get_status" None None; Call "get_consumable" None None].
Proof. vm_compute. split; reflexivity. Qed.

Lemma calls_app (method : string) (log more : list event) :
  calls method (log ++ more) = (calls method log + calls method more)%nat.
Proof. unfold calls. by rewrite filter_app, length_app. Qed.

Lemma loadProperties_log (tr : transport) (this : tables)
    (props : list string) (log : list event) :
  snd (loadProperties tr this props log) =
  log ++ [Call "get_status" None None; Call "get_consumable" None None].
Proof.
  unfold loadProperties, then_, all2, call, settle.
  destruct (objects_reply tr log "get_status" None);
    destruct (objects_reply tr (log ++ [Call "get_status" None None])
                "get_consumable" None);
    simpl; by rewrite <- app_assoc.
Qed.

(** C3: whatever keys are requested, and however the device answers, one
    call of [loadProperties] issues exactly the two remote calls
    [get_status] and [get_consumable], once each. *)
Theorem loadProperties_fetches_once (tr : transport) (this : tables)
    (props : list string) (log : list event) :
  snd (loadProperties tr this props log) =
    log ++ [Call "get_status" None None; Call "get_consumable" None None] /\
  calls "get_status" (snd (loadProperties tr this props log)) =
    S (calls "get_status" log) /\
  calls "get_consumable" (snd (loadProperties tr this props log)) =
    S (calls "get_consumable" log).
Proof.
  rewrite loadProperties_log, !calls_app.
  split; [reflexivity|].
  change (calls "get_status"
            [Call "get_status" None None; Call "get_consumable" None None])
    with 1%nat.
  change (calls "get_consumable"
            [Call "get_status" None None; Call "get_consumable" None None])
    with 1%nat.
  split; lia.
Qed.

(** C7: when the status fetch or the consumable fetch is rejected,
    [loadProperties] is rejected with the failure of a rejected fetch, so no
    snapshot is returned. *)
Theorem loadProperties_fails_with_fetch (tr : transport) (this : tables)
    (props : list string) (log : list event) (e : failure) :
  objects_reply tr log "get_status" None = Rejected e \/
  objects_reply tr (log ++ [Call "get_status" None None])
    "get_consumable" None = Rejected e ->
  exists e',
    fst (loadProperties tr this props log) = Rejected e' /\
    (objects_reply tr log "get_status" None = Rejected e' \/
     objects_reply tr (log ++ [Call "get_status" None None])
       "get_consumable" None = Rejected e').
Proof.
  intros Hfail. unfold loadProperties, then_, all2, call, settle.
  destruct (objects_reply tr log "get_status" None) as [status|e1] eqn:Hs;
    destruct (objects_reply tr (log ++ [Call "get_status" None None])
                "get_consumable" None) as [cons|e2] eqn:Hc;
    simpl.
  - destruct Hfail; discriminate.
  - exists e2. by split; [|right].
  - exists e1. by split; [|left].
  - exists e1. by split; [|left].
Qed.

Lemma loadProperties_fails_with_fetch_witness :
  exists e',
    fst (loadProperties no_consumables vacuum_tables
           ["state"; "batteryLevel"] []) = Rejected e' /\
    (objects_reply no_consumables [] "get_status" None = Rejected e' \/
     objects_reply no_consumables ([] ++ [Call "get_status" None None])
       "get_consumable" None = Rejected e').
Proof.
  apply (loadProperties_fails_with_fetch no_consumables vacuum_tables
           ["state"; "batteryLevel"] []
           (DeviceError "Call to device timed out")).
  right. reflexivity.
Defined.

(** ** Commands *)

Example scenario_charge :
  activateCharging cleaning_device accept_ok [] =
  (Resolved (VArr [VStr "ok"]),
   [Call "app_pause" (Some []) state_refresh; Timeout 1000;
    Call "app_charge" (Some []) state_refresh]).
Proof. reflexivity. Qed.

Lemma command_run (tr : transport) (checkResult : value -> outcome value)
    (method : string) (log : list event) :
  command tr checkResult method log =
  (validated tr checkResult log method,
   log ++ [Call method (Some []) state_refresh]).
Proof.
  unfold command, validated, then_, call, settle.
  by destruct (command_reply tr log method (Some [])).
Qed.

(** C4 (as the code has it): [activateCharging] first issues [app_pause];
    when the pause succeeds it waits 1000ms and issues [app_charge]; when
    the pause fails it issues [app_stop], and if that succeeds waits 1000ms
    and issues [app_charge]; the result of [app_charge] goes through the
    result validator.  When the pause and the stop both fail the chain is
    rejected with the stop's failure, with no wait and no [app_charge]. *)
Theorem activateCharging_sequence (tr : transport)
    (checkResult : value -> outcome value) (log : list event) :
  let PAUSE := Call "app_pause" (Some []) state_refresh in
  let STOP := Call "app_stop" (Some []) state_refresh in
  let CHARGE := Call "app_charge" (Some []) state_refresh in
  match validated tr checkResult log "app_pause" with
  | Resolved _ =>
      activateCharging tr checkResult log =
      (validated tr checkResult (log ++ [PAUSE; Timeout 1000]) "app_charge",
       log ++ [PAUSE; Timeout 1000; CHARGE])
  | Rejected _ =>
      match validated tr checkResult (log ++ [PAUSE]) "app_stop" with
      | Resolved _ =>
          activateCharging tr checkResult log =
          (validated tr checkResult (log ++ [PAUSE; STOP; Timeout 1000])
             "app_charge",
           log ++ [PAUSE; STOP; Timeout 1000; CHARGE])
      | Rejected e =>
          activateCharging tr checkResult log = (Rejected e, log ++ [PAUSE; STOP])
      end
  end.
Proof.
  intros PAUSE STOP CHARGE.
  unfold activateCharging, pause, deactivateCleaning, then_, catch, timeout.
  rewrite command_run. fold PAUSE.
  destruct (validated tr checkResult log "app_pause") as [r|e] eqn:Hpause.
  - unfold call, settle, validated. rewrite <- !app_assoc. simpl.
    fold CHARGE. by destruct (command_reply tr _ "app_charge" (Some [])).
  - rewrite command_run. fold STOP.
    destruct (validated tr checkResult (log ++ [PAUSE]) "app_stop")
      as [r|e'] eqn:Hstop.
    + unfold call, settle, validated. rewrite <- !app_assoc. simpl.
      fold CHARGE. by destruct (command_reply tr _ "app_charge" (Some [])).
    + by rewrite <- app_assoc.
Qed.

(** C4 (as stated) fails: with a device that rejects both [app_pause] and
    [app_stop], the fallback is taken and [activateCharging] neither waits
    nor issues [app_charge]. *)
Lemma activateCharging_without_charge :
  rejected (fst (pause unreachable accept_ok [])) = true /\
  activateCharging unreachable accept_ok [] =
    (Rejected (DeviceError "Call to device timed out"),
     [Call "app_pause" (Some []) state_refresh;
      Call "app_stop" (Some []) state_refresh]) /\
  ~ In (Timeout 1000) (snd (activateCharging unreachable accept_ok [])) /\
  calls "app_charge" (snd (activateCharging unreachable accept_ok [])) = 0%nat.
Proof.
  repeat split; try reflexivity.
  simpl. intros [H|[H|[]]]; discriminate H.
Qed.

(** C9 (as the code has it): for a date with time value [ms] and for the
    integer of its epoch seconds, [getHistoryForDay] issues the same
    [get_clean_record] request and settles alike, with the same history
    entries; the [day] field of the result is the argument as it was passed,
    the date in one case and the integer in the other. *)
Theorem getHistoryForDay_date_or_seconds (tr : transport) (ms : Z)
    (log : list event) :
  exists (request : event) (history : outcome value),
    request = Call "get_clean_record" (Some [VNum (ms / 1000)]) None /\
    getHistoryForDay tr (VDate (Some ms)) log =
      (outcome_map
         (fun h => VObj [("day", VDate (Some ms)); ("history", h)]) history,
       log ++ [request]) /\
    getHistoryForDay tr (VNum (ms / 1000)) log =
      (outcome_map
         (fun h => VObj [("day", VNum (ms / 1000)); ("history", h)]) history,
       log ++ [request]).
Proof.
  eexists.
  exists (outcome_map (fun result => VArr (history_entry <$> result))
            (records_reply tr log "get_clean_record"
               (Some [VNum (ms / 1000)]))).
  split; [reflexivity|].
  unfold getHistoryForDay, then_, call, resolve, epoch_seconds.
  by destruct (records_reply tr log "get_clean_record" _).
Qed.

(** C9 (as stated) fails: for the same instant the two results differ in
    their [day] field. *)
Lemma getHistoryForDay_day_differs :
  fst (getHistoryForDay cleaning_device (VDate (Some 1700000000000)) []) <>
  fst (getHistoryForDay cleaning_device (VNum 1700000000) []) /\
  outcome_map (field "day")
    (fst (getHistoryForDay cleaning_device (VDate (Some 1700000000000)) [])) =
    Resolved (VDate (Some 1700000000000)) /\
  outcome_map (field "day")
    (fst (getHistoryForDay cleaning_device (VNum 1700000000) [])) =
    Resolved (VNum 1700000000).
Proof.
  repeat split; try reflexivity.
  intros H. discriminate H.
Qed.

(** ** Snapshot loader: merging the two sources *)

Lemma load_each_present (this : tables) (st c : gmap string Z)
    (props : list string) (mapped : gmap string value) :
  load_each this (Some st) (Some c) mapped props =
  Resolved (foldl (fun m p => _pushProperty this m p ((st ∪ c) !! p))
                  mapped props).
Proof.
  revert mapped. induction props as [|p props IH]; intros mapped; simpl.
  - reflexivity.
  - destruct (st !! p) as [n|] eqn:Hst.
    + rewrite (lookup_union_l' st c p) by (rewrite Hst; by eexists).
      rewrite Hst. apply IH.
    + rewrite (lookup_union_r st c p Hst). apply IH.
Qed.

Lemma load_each_status_only (this : tables) (st : gmap string Z)
    (props : list string) (mapped : gmap string value) :
  Forall (fun p => is_Some (st !! p)) props ->
  load_each this (Some st) None mapped props =
  Resolved (foldl (fun m p => _pushProperty this m p (st !! p)) mapped props).
Proof.
  intros Hall. revert mapped.
  induction Hall as [|p props [n Hp] _ IH]; intros mapped; simpl.
  - reflexivity.
  - rewrite Hp. apply IH.
Qed.

Lemma load_each_status_gap (this : tables) (st : gmap string Z)
    (props : list string) (mapped : gmap string value) :
  Exists (fun p => st !! p = None) props ->
  load_each this (Some st) None mapped props = Rejected TypeError.
Proof.
  intros Hex. revert mapped.
  induction Hex as [p props Hp|p props _ IH]; intros mapped; simpl.
  - by rewrite Hp.
  - destruct (st !! p); [apply IH|reflexivity].
Qed.

Lemma loadProperties_settles (tr : transport) (this : tables)
    (props : list string) (log : list event)
    (statuses consumables : list (gmap string Z)) :
  objects_reply tr log "get_status" None = Resolved statuses ->
  objects_reply tr (log ++ [Call "get_status" None None])
    "get_consumable" None = Resolved consumables ->
  fst (loadProperties tr this props log) =
  load_each this (statuses !! 0%nat) (consumables !! 0%nat) ∅
            (raw_key this <$> props).
Proof.
  intros Hs Hc. unfold loadProperties, then_, all2, call, settle.
  by rewrite Hs, Hc.
Qed.

(** X1: when both sources answer with an object and no requested key is
    an inherited member name, [loadProperties] resolves, and every requested
    key is read from the status object where it has the key and from the
    consumable object otherwise, that is from their left-biased union;
    further elements of either reply are ignored. *)
Theorem loadProperties_prefers_status (tr : transport) (this : tables)
    (props : list string) (log : list event)
    (st c : gmap string Z) (sts cs : list (gmap string Z)) :
  Forall (plain_key this) props ->
  objects_reply tr log "get_status" None = Resolved (st :: sts) ->
  objects_reply tr (log ++ [Call "get_status" None None])
    "get_consumable" None = Resolved (c :: cs) ->
  fst (loadProperties tr this props log) =
  Resolved (foldl (fun m p => _pushProperty this m p ((st ∪ c) !! p))
                  ∅ (raw_key this <$> props)).
Proof.
  intros _ Hs Hc. rewrite (loadProperties_settles _ _ _ _ _ _ Hs Hc).
  apply load_each_present.
Qed.

Lemma loadProperties_prefers_status_witness :
  fst (loadProperties cleaning_device vacuum_tables
         ["state"; "filterWorkTime"] []) =
  Resolved
    (foldl (fun m p =>
              _pushProperty vacuum_tables m p
                ((({[ "state" := 5; "battery" := 80; "error_code" := 0 ]}
                     : gmap string Z)
                  ∪ {[ "filter_work_time" := 100 ]}) !! p))
           ∅ (raw_key vacuum_tables <$> ["state"; "filterWorkTime"])).
Proof.
  apply (loadProperties_prefers_status cleaning_device vacuum_tables
           ["state"; "filterWorkTime"] [] _ _ [] []);
    [|reflexivity|reflexivity].
  repeat constructor; apply (bool_decide_unpack _); vm_compute; exact I.
Defined.

(** X2: when the status reply is an empty array, [loadProperties] of no key
    resolves to the empty snapshot and [loadProperties] of at least one key is
    rejected with a TypeError, whatever the consumable reply holds. *)
Theorem loadProperties_without_status (tr : transport) (this : tables)
    (props : list string) (log : list event)
    (consumables : list (gmap string Z)) :
  objects_reply tr log "get_status" None = Resolved [] ->
  objects_reply tr (log ++ [Call "get_status" None None])
    "get_consumable" None = Resolved consumables ->
  fst (loadProperties tr this props log) =
  match props with
  | [] => Resolved ∅
  | _ :: _ => Rejected TypeError
  end.
Proof.
  intros Hs Hc. rewrite (loadProperties_settles _ _ _ _ _ _ Hs Hc).
  by destruct props.
Qed.

(** X3: when the status reply holds an object, the consumable reply is an
    empty array and no requested key is an inherited member name,
    [loadProperties] resolves from the status object alone if it has every
    requested raw key, and is rejected with a TypeError if it lacks one of
    them. *)
Theorem loadProperties_without_consumables (tr : transport) (this : tables)
    (props : list string) (log : list event)
    (st : gmap string Z) (sts : list (gmap string Z)) :
  Forall (plain_key this) props ->
  objects_reply tr log "get_status" None = Resolved (st :: sts) ->
  objects_reply tr (log ++ [Call "get_status" None None])
    "get_consumable" None = Resolved [] ->
  (Forall (fun key => is_Some (st !! raw_key this key)) props ->
   fst (loadProperties tr this props log) =
   Resolved (foldl (fun m p => _pushProperty this m p (st !! p))
                   ∅ (raw_key this <$> props))) /\
  (Exists (fun key => st !! raw_key this key = None) props ->
   fst (loadProperties tr this props log) = Rejected TypeError).
Proof.
  intros _ Hs Hc. rewrite (loadProperties_settles _ _ _ _ _ _ Hs Hc).
  split; intros Hkeys.
  - apply load_each_status_only. by apply Forall_fmap.
  - apply load_each_status_gap. by apply Exists_fmap.
Qed.

Lemma loadProperties_without_status_witness :
  fst (loadProperties blank_device vacuum_tables [] []) = Resolved ∅ /\
  fst (loadProperties blank_device vacuum_tables ["state"] []) =
  Rejected TypeError.
Proof.
  split.
  - apply (loadProperties_without_status blank_device vacuum_tables [] [] []);
      reflexivity.
  - apply (loadProperties_without_status blank_device vacuum_tables
             ["state"] [] []); reflexivity.
Defined.

Lemma loadProperties_without_consumables_witness :
  fst (loadProperties status_only vacuum_tables ["filterWorkTime"] []) =
  Rejected TypeError.
Proof.
  apply (loadProperties_without_consumables status_only vacuum_tables
           ["filterWorkTime"] [] {[ "state" := 8; "battery" := 100 ]} []);
    [|reflexivity|reflexivity|].
  - repeat constructor; apply (bool_decide_unpack _); vm_compute; exact I.
  - apply Exists_cons_hd. reflexivity.
Defined.

(** ** Property transforms keep codes apart *)

Lemma label_of_inj (a b : Z) :
  is_Some (label_of a) -> label_of a = label_of b -> a = b.
Proof.
  intros [l Ha] Hab. rewrite Ha in Hab. symmetry in Hab.
  destruct a as [|p|p]; try discriminate Ha.
  do 7 (try destruct p as [p|p|]; try discriminate Ha).
  all: injection Ha as <-.
  all: destruct b as [|q|q]; try discriminate Hab.
  all: do 7 (try destruct q as [q|q|]; try discriminate Hab).
  all: reflexivity.
Qed.

Lemma label_not_unknown (s : Z) (l rest : string) :
  label_of s = Some l -> l <> "unknown-" +:+ rest.
Proof.
  intros Hs.
  destruct s as [|p|p]; try discriminate Hs.
  do 7 (try destruct p as [p|p|]; try discriminate Hs).
  all: injection Hs as <-; discriminate.
Qed.

(** X4: the [state] and [error] transforms keep integer codes apart: two
    raw codes with the same label, or with the same error value, are the
    same code. *)
Theorem mappers_injective (a b : Z) :
  (Mapper.state (Some a) = Mapper.state (Some b) -> a = b) /\
  (Mapper.error (Some a) = Mapper.error (Some b) -> a = b).
Proof.
  split.
  - rewrite !state_by_label.
    destruct (label_of a) as [la|] eqn:Ha, (label_of b) as [lb|] eqn:Hb;
      simpl; intros H; injection H as H.
    + apply label_of_inj; [by rewrite Ha|]. by rewrite Ha, Hb, H.
    + by destruct (label_not_unknown a la (pretty b) Ha).
    + by destruct (label_not_unknown b lb (pretty a) Hb).
    + by apply (inj pretty).
  - destruct a as [|p|p], b as [|q|q]; simpl; intros H;
      try reflexivity; try discriminate H; injection H; intros;
      congruence.
Qed.

Lemma mappers_injective_witness :
  Mapper.state (Some 17) = Mapper.state (Some 17) /\ 17 = 17.
Proof.
  split; [reflexivity|].
  apply (proj1 (mappers_injective 17 17)). reflexivity.
Defined.

(** ** From the raw state code to the flags *)

(** X5: a state notification carrying the label of raw code [s] sets the
    charging flag exactly for code 8, sets the cleaning flag for codes 5,
    11, 17 and 18, keeps it for codes 2, 9, 10 and 12 and clears it for every
    other code, known or not; it replaces the error value only for codes 12,
    9 and 2, and leaves the fan speed alone. *)
Theorem state_code_flags (s : Z) (oldValue : value) (t : thing) :
  flags (propertyUpdated "state" (Mapper.state (Some s)) oldValue t) =
  (Z.eqb s 8,
   if code_in [5; 11; 17; 18] s then true
   else if code_in [2; 9; 10; 12] s then cleaning t
   else false,
   if Z.eqb s 12 then Hooks.property "error" t
   else if Z.eqb s 9 then charging_error
   else if Z.eqb s 2 then charger_offline
   else error t,
   fanSpeed t).
Proof.
  destruct s as [|p|p]; [reflexivity| |reflexivity].
  do 7 (destruct p as [p|p|]; try reflexivity).
Qed.

(** ** What a notification leaves alone *)

(** X6: no notification changes the snapshot of properties; a notification
    for a key other than [fanSpeed] leaves the fan speed, and one for a key
    other than [state] leaves the charging flag, the cleaning flag and the
    error value. *)
Theorem propertyUpdated_frame (key : string) (v oldValue : value)
    (t : thing) :
  properties (propertyUpdated key v oldValue t) = properties t /\
  (key <> "fanSpeed" ->
   fanSpeed (propertyUpdated key v oldValue t) = fanSpeed t) /\
  (key <> "state" ->
   charging (propertyUpdated key v oldValue t) = charging t /\
   cleaning (propertyUpdated key v oldValue t) = cleaning t /\
   error (propertyUpdated key v oldValue t) = error t).
Proof.
  unfold propertyUpdated, state_rules. simpl.
  destruct (String.eqb_spec key "state") as [->|Hstate];
    [|destruct (String.eqb_spec key "fanSpeed") as [->|Hfan]]; simpl.
  - split; [|split]; [|intros _|intros Hne; contradiction];
      repeat match goal with
             | |- context [if ?b then _ else _] => destruct b
             end; reflexivity.
  - split; [|split]; [reflexivity|intros Hne; contradiction|].
    intros _. repeat split; reflexivity.
  - split; [|split]; [reflexivity|intros _; reflexivity|].
    intros _. repeat split; reflexivity.
Qed.

Lemma propertyUpdated_frame_witness :
  fanSpeed (propertyUpdated "state" (VStr "docking") (VStr "cleaning")
              busy_thing) = fanSpeed busy_thing /\
  cleaning (propertyUpdated "fanSpeed" (VNum 77) (VNum 60) busy_thing) =
  cleaning busy_thing.
Proof.
  split.
  - apply (proj1 (proj2 (propertyUpdated_frame "state" (VStr "docking")
                           (VStr "cleaning") busy_thing))).
    intros H. discriminate H.
  - apply (proj2 (proj2 (propertyUpdated_frame "fanSpeed" (VNum 77)
                           (VNum 60) busy_thing))).
    intros H. discriminate H.
Defined.

(** X7: delivering the same notification again changes no flag: the flags
    after a repeated notification are those after the first one, whatever
    the old values passed along. *)
Theorem propertyUpdated_repeated (key : string) (v oldValue oldValue' : value)
    (t : thing) :
  flags (propertyUpdated key v oldValue'
           (propertyUpdated key v oldValue t)) =
  flags (propertyUpdated key v oldValue t).
Proof.
  unfold flags, propertyUpdated, state_rules. simpl.
  repeat match goal with
         | |- context [is_str ?x ?lit] => destruct (is_str x lit) eqn:?; simpl
         | |- context [String.eqb ?k ?lit] =>
             destruct (String.eqb k lit) eqn:?; simpl
         end; reflexivity.
Qed.

(** ** Cleaning history *)

Example scenario_history :
  fst (getHistory three_days []) =
  Resolved (VObj [("count", VNum 3);
                  ("days", VArr [VDate (Some 1700000000000);
                                 VDate (Some 1700086400000);
                                 VDate (Some 1700172800000)])]).
Proof. reflexivity. Qed.




(** X9: for a date with time value [ms], [getHistoryForDay] requests the
    record of the whole second [r] the instant falls in, rounding down also
    before the epoch: [r * 1000 <= ms < r * 1000 + 1000]. *)
Theorem getHistoryForDay_whole_second (tr : transport) (ms : Z)
    (log : list event) :
  exists r : Z,
    snd (getHistoryForDay tr (VDate (Some ms)) log) =
      log ++ [Call "get_clean_record" (Some [VNum r]) None] /\
    r * 1000 <= ms < r * 1000 + 1000.
Proof.
  exists (ms / 1000). split.
  - unfold getHistoryForDay, then_, call, epoch_seconds.
    by destruct (records_reply tr log "get_clean_record" _).
  - pose proof (Z.div_mod ms 1000) as Hdiv.
    pose proof (Z.mod_pos_bound ms 1000) as Hmod. lia.
Qed.

(** X10: [getHistory] issues the one call [get_clean_summary], and it
    resolves exactly when the transport resolves with a reply whose fourth
    element is an array; a shorter reply, or a number in that place, makes it
    fail. *)
Theorem getHistory_resolves_iff
    (summary_reply :
       list event -> string -> option (list value) ->
       outcome (list summary_item))
    (log : list event) :
  snd (getHistory summary_reply log) =
    log ++ [Call "get_clean_summary" None None] /\
  (rejected (fst (getHistory summary_reply log)) = false <->
   exists (result : list summary_item) (timestamps : list Z),
     summary_reply log "get_clean_summary" None = Resolved result /\
     result !! 3%nat = Some (SummaryList timestamps)).
Proof.
  unfold getHistory, then_, call, resolve, settle.
  destruct (summary_reply log "get_clean_summary" None) as [result|e];
    simpl.
  - destruct (result !! 3%nat) as [[n|timestamps]|] eqn:Hdays; simpl;
      (split; [reflexivity|]); split.
    + discriminate.
    + intros (r & ts & Hr & Hts). injection Hr as <-.
      rewrite Hdays in Hts. discriminate.
    + intros _. by exists result, timestamps.
    + reflexivity.
    + discriminate.
    + intros (r & ts & Hr & Hts). injection Hr as <-.
      rewrite Hdays in Hts. discriminate.
  - split; [reflexivity|]. split; [discriminate|].
    intros (r & ts & Hr & _). discriminate.
Qed.

(** ** Requests by raw or by semantic name *)

Lemma raw_key_idempotent (key : string) :
  raw_key vacuum_tables (raw_key vacuum_tables key) =
  raw_key vacuum_tables key.
Proof.
  unfold raw_key at 2 3.
  destruct (_reversePropertyDefinitions vacuum_tables !! key) as [r|] eqn:Hkey.
  - assert (r ∈ (map_to_list (_reversePropertyDefinitions vacuum_tables)).*2)
      as Hin.
    { apply list_elem_of_fmap. exists (key, r).
      split; [reflexivity|]. by apply elem_of_map_to_list. }
    vm_compute in Hin.
    repeat (apply elem_of_cons in Hin as [->|Hin]);
      [..|by apply elem_of_nil in Hin].
    all: vm_compute; reflexivity.
  - unfold raw_key. by rewrite Hkey.
Qed.

Lemma defined_properties_wired (v : raw) :
  Forall (fun '(rawKey, name, mapper) =>
            raw_key vacuum_tables (default rawKey name) = rawKey /\
            _pushProperty vacuum_tables ∅ rawKey v =
            {[ default rawKey name := default of_raw mapper v ]})
         defined_properties.
Proof.
  unfold defined_properties.
  repeat (apply List.Forall_cons;
          [split; [vm_compute; reflexivity|reflexivity]|]).
  apply List.Forall_nil.
Qed.

(** X11: with the property tables the constructor's definitions give (by
    [defineProperty] as the specification describes it), translating the
    requested keys to raw keys beforehand changes nothing: [loadProperties]
    issues the same calls and settles alike for semantic names, raw names or
    a mix of them. *)
Theorem loadProperties_raw_or_semantic (tr : transport)
    (props : list string) (log : list event) :
  loadProperties tr vacuum_tables (raw_key vacuum_tables <$> props) log =
  loadProperties tr vacuum_tables props log.
Proof.
  assert (raw_key vacuum_tables <$> (raw_key vacuum_tables <$> props) =
          raw_key vacuum_tables <$> props) as Hkeys.
  { rewrite <- list_fmap_compose. apply list_fmap_ext.
    intros i key _. apply raw_key_idempotent. }
  unfold loadProperties. by rewrite Hkeys.
Qed.

(** X12: with those tables, and both sources answering with an object,
    requesting one defined property by its semantic name resolves to the
    snapshot with that name alone, holding the property's transform of the
    raw field, read from the status object first and from the consumable
    object otherwise. *)
Theorem loadProperties_defined_property (tr : transport) (log : list event)
    (st c : gmap string Z) (sts cs : list (gmap string Z))
    (rawKey : string) (name : option string) (mapper : option (raw -> value)) :
  (rawKey, name, mapper) ∈ defined_properties ->
  objects_reply tr log "get_status" None = Resolved (st :: sts) ->
  objects_reply tr (log ++ [Call "get_status" None None])
    "get_consumable" None = Resolved (c :: cs) ->
  fst (loadProperties tr vacuum_tables [default rawKey name] log) =
  Resolved {[ default rawKey name :=
                default of_raw mapper ((st ∪ c) !! rawKey) ]}.
Proof.
  intros Hin Hs Hc.
  rewrite (loadProperties_settles _ _ _ _ _ _ Hs Hc).
  etransitivity; [apply (load_each_present vacuum_tables st c)|].
  pose proof (proj1 (Forall_forall _ _)
                (defined_properties_wired ((st ∪ c) !! rawKey))
                _ Hin) as [Hkey Hpush].
  simpl in Hkey, Hpush. simpl. by rewrite Hkey, Hpush.
Qed.

Lemma loadProperties_defined_property_witness :
  fst (loadProperties cleaning_device vacuum_tables
         [default "battery" (Some "batteryLevel")] []) =
  Resolved {[ default "battery" (Some "batteryLevel") :=
                default of_raw None
                  ((({[ "state" := 5; "battery" := 80; "error_code" := 0 ]}
                       : gmap string Z)
                    ∪ {[ "filter_work_time" := 100 ]}) !! "battery") ]}.
Proof.
  apply (loadProperties_defined_property cleaning_device [] _ _ [] []
           "battery" (Some "batteryLevel") None).
  - unfold defined_properties. do 2 apply list_elem_of_further.
    apply list_elem_of_here.
  - reflexivity.
  - reflexivity.
Defined.

(** ** Charging and cleaning exclude each other *)

Lemma is_str_true (v : value) (lit : string) :
  is_str v lit = true -> v = VStr lit.
Proof.
  destruct v; simpl; try discriminate.
  intros H. f_equal. by apply String.eqb_eq.
Qed.

Lemma state_notification_exclusive (v oldValue : value) (t : thing) :
  charging (propertyUpdated "state" v oldValue t)
  && cleaning (propertyUpdated "state" v oldValue t) = false.
Proof.
  destruct (is_str v "charging") eqn:Hcharging.
  - apply is_str_true in Hcharging as ->. reflexivity.
  - unfold propertyUpdated, state_rules. simpl. rewrite Hcharging.
    repeat match goal with
           | |- context [if ?b then _ else _] => destruct b
           end; reflexivity.
Qed.

Lemma notification_exclusive (key : string) (v oldValue : value) (t : thing) :
  charging t && cleaning t = false ->
  charging (propertyUpdated key v oldValue t)
  && cleaning (propertyUpdated key v oldValue t) = false.
Proof.
  intros Ht. destruct (String.eqb_spec key "state") as [->|Hstate].
  - apply state_notification_exclusive.
  - unfold propertyUpdated.
    rewrite (proj2 (String.eqb_neq _ _) Hstate).
    by destruct (String.eqb key "fanSpeed").
Qed.

(** X13: the projector never reports a vacuum as charging and cleaning at
    once: a state notification leaves at most one of the two flags set,
    whatever they were, and a run of notifications of any keys that starts
    with at most one of them set ends with at most one of them set. *)
Theorem never_charging_and_cleaning
    (run : list (string * value * value)) (t : thing) :
  (forall v oldValue,
      charging (propertyUpdated "state" v oldValue t)
      && cleaning (propertyUpdated "state" v oldValue t) = false) /\
  (charging t && cleaning t = false ->
   charging (deliver run t) && cleaning (deliver run t) = false).
Proof.
  split; [intros v oldValue; apply state_notification_exclusive|].
  revert t. unfold deliver.
  induction run as [|[[key v] oldValue] run IH]; intros t Ht; simpl.
  - exact Ht.
  - apply IH. by apply notification_exclusive.
Qed.

Lemma never_charging_and_cleaning_witness :
  charging (deliver [("state", VStr "cleaning", VStr "charging");
                     ("fanSpeed", VNum 77, VNum 60);
                     ("state", VStr "charging", VStr "cleaning")] idle_thing)
  && cleaning (deliver [("state", VStr "cleaning", VStr "charging");
                        ("fanSpeed", VNum 77, VNum 60);
                        ("state", VStr "charging", VStr "cleaning")]
                 idle_thing) = false.
Proof.
  apply (proj2 (never_charging_and_cleaning
                  [("state", VStr "cleaning", VStr "charging");
                   ("fanSpeed", VNum 77, VNum 60);
                   ("state", VStr "charging", VStr "cleaning")] idle_thing)).
  reflexivity.
Defined.
